(** * vinc-placement-website: the i18n utilities and the SEO metadata builder

    A shallow embedding of [src/i18n/utils.ts] and [src/utils/seo.ts],
    together with the constants of [src/utils/constants.ts] and the
    [Language] type of [src/types/index.ts] they rely on.

    JavaScript strings are modelled by [string]; each [ascii] stands for one
    code unit.  Every string operation the sources use ([split], [startsWith],
    [slice], [replace], concatenation, [===]) works code unit by code unit,
    so nothing below depends on the width of a unit.  [toLowerCase] is the
    one exception: it is modelled on the ASCII letters, which is all that can
    reach one of the language codes. *)

From Stdlib Require Import String Ascii List Bool Arith ZArith Lia.
Import ListNotations.
Set Warnings "-register-all".
Open Scope list_scope.
Open Scope string_scope.

(* ================================================================= *)
(** ** The string primitives of the JavaScript runtime used by the sources *)

Module JsString.

(** [s.startsWith(pre)] *)
Fixpoint startsWith (s pre : string) {struct pre} : bool :=
  match pre with
  | EmptyString => true
  | String c pre' =>
      match s with
      | EmptyString => false
      | String d s' => Ascii.eqb d c && startsWith s' pre'
      end
  end.

(** [s.slice(n)] for a non-negative [n]: what is left after the first [n]
    code units, the empty string when [s] is shorter. *)
Fixpoint slice (n : nat) (s : string) : string :=
  match n, s with
  | O, _ => s
  | S _, EmptyString => EmptyString
  | S n', String _ s' => slice n' s'
  end.

(** [s.split(c)] for a separator of one code unit, the only kind the
    sources pass (['.'], ['/'] and ['-']).  The result is never empty:
    the empty string splits into one empty piece. *)
Fixpoint split (c : ascii) (s : string) : list string :=
  match s with
  | EmptyString => [EmptyString]
  | String a s' =>
      if Ascii.eqb a c then EmptyString :: split c s'
      else match split c s' with
           | [] => [String a EmptyString]
           | piece :: pieces => String a piece :: pieces
           end
  end.

(** [s.replace(pat, rep)] with a string pattern: only the first occurrence
    of [pat] is replaced.  ([rep] holds no [$], so it is taken literally.) *)
Fixpoint replace (pat rep s : string) : string :=
  if startsWith s pat then rep ++ slice (String.length pat) s
  else match s with
       | EmptyString => EmptyString
       | String a s' => String a (replace pat rep s')
       end.

Definition lower_unit (c : ascii) : ascii :=
  let n := nat_of_ascii c in
  if Nat.leb 65 n && Nat.leb n 90 then ascii_of_nat (n + 32) else c.

(** [s.toLowerCase()] *)
Fixpoint toLowerCase (s : string) : string :=
  match s with
  | EmptyString => EmptyString
  | String c s' => String (lower_unit c) (toLowerCase s')
  end.

(** Truthiness of a string: every string but the empty one. *)
Definition truthy (s : string) : bool := negb (String.eqb s "").

End JsString.

(* ================================================================= *)
(** ** [src/types/index.ts]: the supported languages *)

(** [export type Language = 'en' | 'ja' | 'th';] *)
Inductive Language : Type := en | ja | th.

(** The string a [Language] is at run time. *)
Definition code (l : Language) : string :=
  match l with
  | en => "en"
  | ja => "ja"
  | th => "th"
  end.

(* ================================================================= *)
(** ** [src/i18n/utils.ts]: constants and the path utilities *)

Definition DEFAULT_LANG : Language := ja.

Definition LANGUAGES : list Language := [en; ja; th].

(** [LANGUAGES.includes(s as Language)] followed by the cast [s as Language]:
    the supported language whose code is the string [s], [None] when
    [includes] answers [false]. *)
Definition as_Language (s : string) : option Language :=
  find (fun l => String.eqb (code l) s) LANGUAGES.

(** One entry of the list [getAlternateUrls] returns. *)
Record Alternate : Type := mkAlternate {
  alt_lang : Language;
  alt_href : string
}.

Definition getAlternateUrls (currentPath : string) : list Alternate :=
  map (fun lang => {| alt_lang := lang;
                      alt_href := "/" ++ code lang ++ currentPath |})
      LANGUAGES.

(** The test of the loop body of [removeLanguagePrefix]. *)
Definition has_prefix_of (lang : Language) (p : string) : bool :=
  JsString.startsWith p (code lang ++ "/") || String.eqb p (code lang).

(** The [for (const lang of LANGUAGES)] loop of [removeLanguagePrefix]:
    [Some r] when an iteration returns [r], [None] when the loop runs out. *)
Fixpoint strip_loop (langs : list Language) (pathWithoutLeadingSlash : string)
  : option string :=
  match langs with
  | [] => None
  | lang :: rest =>
      if has_prefix_of lang pathWithoutLeadingSlash
      then Some ("/" ++ JsString.slice (String.length (code lang) + 1)
                                       pathWithoutLeadingSlash)
      else strip_loop rest pathWithoutLeadingSlash
  end.

Definition removeLanguagePrefix (path : string) : string :=
  let pathWithoutLeadingSlash :=
    if JsString.startsWith path "/" then JsString.slice 1 path else path in
  match strip_loop LANGUAGES pathWithoutLeadingSlash with
  | Some stripped => stripped
  | None => "/" ++ pathWithoutLeadingSlash
  end.

(** ** [src/i18n/utils.ts]: the language of a URL *)

(** The one field of the platform's [URL] objects that is read. *)
Record URL : Type := mkURL { pathname : string }.

(** [const [, langSegment] = pathname.split('/')]: the element at index 1,
    [undefined] ([None]) when the split has a single element. *)
Definition second_segment (pathname : string) : option string :=
  nth_error (JsString.split "/" pathname) 1.

(** [getLangFromUrl].  A string argument goes through the platform's
    [new URL(url, 'http://localhost')] first; that constructor is not part of
    the repository and is taken as the parameter [new_URL], [None] standing
    for the [TypeError] it raises on a string it cannot parse. *)
Definition getLangFromUrl (new_URL : string -> string -> option URL)
    (url : URL + string) : option Language :=
  let urlObj :=
    match url with
    | inr s => new_URL s "http://localhost"
    | inl u => Some u
    end in
  match urlObj with
  | None => None
  | Some urlObj =>
      let pathname :=
        if JsString.startsWith (pathname urlObj) "/vinc-placement-website/"
        then JsString.replace "/vinc-placement-website" "" (pathname urlObj)
        else pathname urlObj in
      Some match second_segment pathname with
           | Some langSegment =>
               if JsString.truthy langSegment
               then match as_Language langSegment with
                    | Some lang => lang
                    | None => DEFAULT_LANG
                    end
               else DEFAULT_LANG
           | None => DEFAULT_LANG
           end
  end.

(* ================================================================= *)
(** ** [src/i18n/utils.ts]: the language of the browser *)

(** What [detectBrowserLanguage] reads of the global [navigator]:
    [language] ([None] when it is [undefined]) and [languages]
    ([None] when it is [undefined] or [null]). *)
Record Navigator : Type := mkNavigator {
  language : option string;
  languages : option (list string)
}.

(** Whether [window] exists, and the [navigator] that comes with it. *)
Inductive Environment : Type :=
| NoWindow
| Browser (navigator : Navigator).

(** [a || b] on values that are a string or [undefined]. *)
Definition or_string (a b : option string) : option string :=
  match a with
  | Some s => if JsString.truthy s then a else b
  | None => b
  end.

(** [navigator.languages?.[0]] *)
Definition optional_first (l : option (list string)) : option string :=
  match l with
  | Some items => nth_error items 0
  | None => None
  end.

(** [navigator.language || navigator.languages?.[0] || 'en'] *)
Definition browserLang (nav : Navigator) : string :=
  match or_string (or_string (language nav) (optional_first (languages nav)))
                  (Some "en") with
  | Some s => s
  | None => "en"
  end.

(** [browserLang.split('-')[0].toLowerCase()]; a split is never empty, so
    the element at index 0 exists. *)
Definition langCode (browserLang : string) : string :=
  JsString.toLowerCase (hd "" (JsString.split "-" browserLang)).

Definition detectBrowserLanguage (env : Environment) : Language :=
  match env with
  | NoWindow => DEFAULT_LANG
  | Browser nav =>
      match as_Language (langCode (browserLang nav)) with
      | Some lang => lang
      | None => DEFAULT_LANG
      end
  end.

(* ================================================================= *)
(** ** The values [t] handles *)

(** The translation files are JSON documents. *)
Inductive Json : Type :=
| JNull
| JBool (b : bool)
| JNum (z : Z)
| JStr (s : string)
| JArr (items : list Json)
| JObj (members : list (string * Json)).

(** [interface Translations { [key: string]: string | Translations }]: an
    object.  Its members are kept in a list; the member of a name is the
    first entry under that name.  (The locale files also hold arrays, as the
    documentation of [t] says, so a member is any JSON value.) *)
Definition Translations : Type := list (string * Json).

(** The values an expression of [t] can have: [undefined], the JSON values,
    and what the runtime itself puts behind a property read on an object or
    an array: the built-in functions and the two prototype objects.
    Numbers are the integers, enough for JSON data and for [length]. *)
Inductive JsVal : Type :=
| VUndef
| VJson (j : Json)
| VFun (name : string)
| VObjectPrototype
| VArrayPrototype.

Definition VStr (s : string) : JsVal := VJson (JStr s).

(** The names of the members objects and arrays inherit from
    [Object.prototype] and [Array.prototype] (besides [__proto__], which is
    treated apart).  They depend on the edition of the runtime, so they are a
    parameter; all of them are functions. *)
Record Host : Type := mkHost {
  object_members : list string;
  array_members : list string
}.

Module Js.

Definition truthy (v : JsVal) : bool :=
  match v with
  | VUndef => false
  | VJson JNull => false
  | VJson (JBool b) => b
  | VJson (JNum z) => negb (Z.eqb z 0)
  | VJson (JStr s) => JsString.truthy s
  | VJson (JArr _) | VJson (JObj _) => true
  | VFun _ | VObjectPrototype | VArrayPrototype => true
  end.

Definition typeof (v : JsVal) : string :=
  match v with
  | VUndef => "undefined"
  | VJson JNull => "object"
  | VJson (JBool _) => "boolean"
  | VJson (JNum _) => "number"
  | VJson (JStr _) => "string"
  | VJson (JArr _) | VJson (JObj _) => "object"
  | VFun _ => "function"
  | VObjectPrototype | VArrayPrototype => "object"
  end.

(** [a || b] *)
Definition or (a b : JsVal) : JsVal := if truthy a then a else b.

(** [v !== undefined] *)
Definition is_defined (v : JsVal) : bool :=
  match v with
  | VUndef => false
  | _ => true
  end.

(** The own member of an object under a name. *)
Fixpoint own (members : list (string * Json)) (k : string) : option Json :=
  match members with
  | [] => None
  | (name, value) :: rest =>
      if String.eqb name k then Some value else own rest k
  end.

Definition mem (k : string) (names : list string) : bool :=
  existsb (String.eqb k) names.

Definition digit (c : ascii) : option N :=
  let n := nat_of_ascii c in
  if Nat.leb 48 n && Nat.leb n 57 then Some (N.of_nat (n - 48)) else None.

Fixpoint digits (s : string) (acc : N) : option N :=
  match s with
  | EmptyString => Some acc
  | String c s' =>
      match digit c with
      | Some d => digits s' (10 * acc + d)
      | None => None
      end
  end.

(** A property name is an array index when it is the canonical decimal
    form of an integer below 2^32 - 1: ["0"], or digits that do not start
    with ["0"]. *)
Definition array_index (k : string) : option N :=
  match k with
  | EmptyString => None
  | String c rest =>
      let canonical :=
        if Ascii.eqb c "0" then String.eqb rest "" else true in
      if canonical
      then match digits k 0 with
           | Some i => if N.ltb i 4294967295 then Some i else None
           | None => None
           end
      else None
  end.

(** The own members of an array: its elements and [length]. *)
Definition own_of_array (items : list Json) (k : string) : option JsVal :=
  if String.eqb k "length" then Some (VJson (JNum (Z.of_nat (length items))))
  else match array_index k with
       | Some i =>
           if N.ltb i (N.of_nat (length items))
           then option_map VJson (nth_error items (N.to_nat i))
           else None
       | None => None
       end.

(** What [Object.prototype] holds under a name other than [__proto__]. *)
Definition of_Object_prototype (h : Host) (k : string) : JsVal :=
  if mem k (object_members h) then VFun ("Object.prototype." ++ k)
  else VUndef.

(** The own members of [Array.prototype], itself an array of length 0. *)
Definition own_of_Array_prototype (h : Host) (k : string) : option JsVal :=
  if String.eqb k "length" then Some (VJson (JNum 0))
  else if mem k (array_members h) then Some (VFun ("Array.prototype." ++ k))
  else None.

(** A read that finds no own member on an object made from JSON goes to
    [Object.prototype]; [__proto__] is the accessor that answers the
    prototype of the receiver. *)
Definition inherited_by_object (h : Host) (k : string) : JsVal :=
  if String.eqb k "__proto__" then VObjectPrototype
  else of_Object_prototype h k.

(** The same for an array: [Array.prototype], then [Object.prototype]. *)
Definition inherited_by_array (h : Host) (k : string) : JsVal :=
  if String.eqb k "__proto__" then VArrayPrototype
  else match own_of_Array_prototype h k with
       | Some v => v
       | None => of_Object_prototype h k
       end.

(** How an evaluation ends: with a value, or with a raised [TypeError]. *)
Inductive completion (A : Type) : Type :=
| Normal (a : A)
| Throw.
Arguments Normal {A} a.
Arguments Throw {A}.

(** The property read [v[k]].  On [undefined] and [null] it raises a
    [TypeError].  On the other primitives and on functions it goes through
    wrapper objects that are not modelled: such a read is counted as a
    failure too, so that a proof that [t] ends normally also shows that [t]
    performs no such read. *)
Definition Get (h : Host) (v : JsVal) (k : string) : completion JsVal :=
  match v with
  | VJson (JObj members) =>
      Normal match own members k with
             | Some j => VJson j
             | None => inherited_by_object h k
             end
  | VJson (JArr items) =>
      Normal match own_of_array items k with
             | Some e => e
             | None => inherited_by_array h k
             end
  | VArrayPrototype =>
      Normal match own_of_Array_prototype h k with
             | Some m => m
             | None => inherited_by_object h k
             end
  | VObjectPrototype =>
      Normal (if String.eqb k "__proto__" then VJson JNull
              else of_Object_prototype h k)
  | _ => Throw
  end.

End Js.

(* ================================================================= *)
(** ** [src/i18n/utils.ts]: [t] *)

(** How the [for (const k of keys)] loop of [t] ends: by the [return] of its
    [else] branch, or by running out of keys with [result] in hand. *)
Inductive loop_end : Type :=
| Returned (v : JsVal)
| Finished (result : JsVal).

Fixpoint walk (h : Host) (fallback : JsVal) (key : string)
    (result : JsVal) (keys : list string) : Js.completion loop_end :=
  match keys with
  | [] => Js.Normal (Finished result)
  | k :: rest =>
      if Js.truthy result && String.eqb (Js.typeof result) "object"
      then match Js.Get h result k with
           | Js.Normal next => walk h fallback key next rest
           | Js.Throw => Js.Throw
           end
      else Js.Normal (Returned (Js.or fallback (VStr key)))
  end.

(** [t(lang, key, fallback)].  The locale files are not among the sources:
    [translations] is a parameter.  An omitted [fallback] is [VUndef]. *)
Definition t (h : Host) (translations : Language -> Translations)
    (lang : Language) (key : string) (fallback : JsVal)
  : Js.completion JsVal :=
  let langTranslations :=
    Js.or (VJson (JObj (translations lang)))
          (VJson (JObj (translations DEFAULT_LANG))) in
  let keys := JsString.split "." key in
  match walk h fallback key langTranslations keys with
  | Js.Throw => Js.Throw
  | Js.Normal (Returned v) => Js.Normal v
  | Js.Normal (Finished result) =>
      Js.Normal (if Js.is_defined result then result
                 else Js.or fallback (VStr key))
  end.

(** The spec's notion of a key present in a translation tree: the value
    found by following the segments of the key through nested mappings,
    one entry per segment. *)
Fixpoint stored_at (tree : Json) (path : list string) : option Json :=
  match path with
  | [] => Some tree
  | segment :: rest =>
      match tree with
      | JObj members =>
          match Js.own members segment with
          | Some sub => stored_at sub rest
          | None => None
          end
      | _ => None
      end
  end.

(** A segment that names something the runtime supplies by itself on an
    object or an array: an inherited member, [__proto__], [length] or an
    array index. *)
Definition host_supplied (h : Host) (k : string) : bool :=
  Js.mem k (object_members h) || Js.mem k (array_members h)
  || String.eqb k "__proto__" || String.eqb k "length"
  || match Js.array_index k with Some _ => true | None => false end.

(** The two ways the loop of [t] gives up on a key: it runs out of keys
    with [undefined] in hand, or it returns from its [else] branch. *)
Definition gives_up (fallback : JsVal) (key : string)
    (r : Js.completion loop_end) : Prop :=
  r = Js.Normal (Finished VUndef) \/
  r = Js.Normal (Returned (Js.or fallback (VStr key))).

(** A runtime of the ES2022 edition, and a small translation table. *)
Definition es2022 : Host :=
  {| object_members :=
       ["constructor"; "hasOwnProperty"; "isPrototypeOf";
        "propertyIsEnumerable"; "toLocaleString"; "toString"; "valueOf";
        "__defineGetter__"; "__defineSetter__"; "__lookupGetter__";
        "__lookupSetter__"];
     array_members :=
       ["constructor"; "at"; "concat"; "copyWithin"; "entries"; "every";
        "fill"; "filter"; "find"; "findIndex"; "flat"; "flatMap"; "forEach";
        "includes"; "indexOf"; "join"; "keys"; "lastIndexOf"; "map"; "pop";
        "push"; "reduce"; "reduceRight"; "reverse"; "shift"; "slice"; "some";
        "sort"; "splice"; "toLocaleString"; "toString"; "unshift"; "values"]
  |}.

Definition sample_translations (lang : Language) : Translations :=
  match lang with
  | en => [("nav", JObj [("home", JStr "Home"); ("about", JStr "About")]);
           ("about", JObj [("expertise_areas",
                            JArr [JStr "Engineering"; JStr "Construction"])]);
           ("empty", JStr "")]
  | ja => [("nav", JObj [("home", JStr "ho-mu")])]
  | th => [("nav", JObj [("home", JStr "na raek")])]
  end.

(* ================================================================= *)
(** ** [src/utils/constants.ts] *)

(** [SITE_CONFIG], without [currentYear] (the year of the clock, which the
    metadata builders do not read). *)
Record SiteConfig : Type := mkSiteConfig {
  site_name : string;
  site_title : string;
  site_domain : string;
  site_url : string;
  site_description : string;
  site_locale : string;
  site_themeColor : string;
  site_foundedYear : Z
}.

Definition SITE_CONFIG : SiteConfig :=
  {| site_name := "VINC Placement";
     site_title := "VINC Placement Co., Ltd.";
     site_domain := "www.vincplacement.com";
     site_url := "https://www.vincplacement.com";
     site_description := "Leading workforce solutions in Asia since 1988";
     site_locale := "en_US";
     site_themeColor := "#3b82f6";
     site_foundedYear := 1988 |}.

Definition SEO_KEYWORDS : list string :=
  [ "Thai workers for Japan";
    "Japan job placement Thailand";
    "Thai workers recruitment";
    "Work in Japan from Thailand";
    "Japanese factory jobs for Thai";
    "Thai engineers Japan";
    "Japan workforce solutions";
    "Thai blue collar workers Japan";
    "Japanese construction workers Thailand";
    "Thailand Japan employment agency";
    "Thai workers Japan visa";
    "Japan job opportunities Thailand";
    "Thai workers Japan placement";
    "Japanese companies Thai workers";
    "Thailand Japan workforce deployment" ].

(* ================================================================= *)
(** ** [src/utils/seo.ts] *)

(** The argument of [generateSEOMeta]; an optional property is [None] when
    it is left out (or [undefined]), which is when its default applies. *)
Record SEOParams : Type := mkSEOParams {
  param_title : string;
  param_description : string;
  param_lang : Language;
  param_path : option string;
  param_keywords : option (list string);
  param_image : option string
}.

(** [interface SEOMeta], with the properties [generateSEOMeta] always sets. *)
Record SEOMeta : Type := mkSEOMeta {
  meta_title : string;
  meta_description : string;
  meta_keywords : list string;
  meta_image : string;
  meta_canonical : string;
  meta_lang : Language;
  meta_alternates : list Alternate
}.

(** A destructuring default: [x = d]. *)
Definition default_to {A : Type} (d : A) (x : option A) : A :=
  match x with
  | Some a => a
  | None => d
  end.

Definition generateSEOMeta (params : SEOParams) : SEOMeta :=
  let title := param_title params in
  let description := param_description params in
  let lang := param_lang params in
  let path := default_to "/" (param_path params) in
  let keywords := default_to [] (param_keywords params) in
  let image := default_to "/images/og-image.jpg" (param_image params) in
  let allKeywords := (SEO_KEYWORDS ++ keywords)%list in
  let fullTitle := title ++ " | " ++ site_name SITE_CONFIG in
  let canonical := site_url SITE_CONFIG ++ "/" ++ code lang ++ path in
  let alternates := getAlternateUrls path in
  {| meta_title := fullTitle;
     meta_description := description;
     meta_keywords := allKeywords;
     meta_image := site_url SITE_CONFIG ++ image;
     meta_canonical := canonical;
     meta_lang := lang;
     meta_alternates := alternates |}.

(** [items.map((item, index) => ...)]: the callback gets each element with
    its index, counted from [index]. *)
Fixpoint map_indexed {A B : Type} (f : A -> nat -> B) (index : nat)
    (items : list A) : list B :=
  match items with
  | [] => []
  | item :: rest => f item index :: map_indexed f (S index) rest
  end.

Record Breadcrumb : Type := mkBreadcrumb {
  crumb_name : string;
  crumb_url : string
}.

Record ListItem : Type := mkListItem {
  li_type : string;
  li_position : nat;
  li_name : string;
  li_item : string
}.

Record BreadcrumbList : Type := mkBreadcrumbList {
  bl_context : string;
  bl_type : string;
  itemListElement : list ListItem
}.

Definition generateBreadcrumbSchema (items : list Breadcrumb) : BreadcrumbList :=
  {| bl_context := "https://schema.org";
     bl_type := "BreadcrumbList";
     itemListElement :=
       map_indexed (fun item index =>
                      {| li_type := "ListItem";
                         li_position := index + 1;
                         li_name := crumb_name item;
                         li_item := site_url SITE_CONFIG ++ crumb_url item |})
                   0 items |}.

(* ================================================================= *)
(** ** [src/i18n/utils.ts]: the remaining functions *)

(** [getAllTranslations(lang)]: the same [translations[lang] ||
    translations[DEFAULT_LANG]] as the first line of [t]. *)
Definition getAllTranslations (translations : Language -> Translations)
    (lang : Language) : JsVal :=
  Js.or (VJson (JObj (translations lang)))
        (VJson (JObj (translations DEFAULT_LANG))).

(** What [handleLanguageRedirect] reads of the global [window]: the
    pathname of its location, and the [navigator] that
    [detectBrowserLanguage] consults. *)
Record Window : Type := mkWindow {
  location_pathname : string;
  window_navigator : Navigator
}.

(** [handleLanguageRedirect()].  Its one effect is the call
    [window.location.replace(newUrl)]: the result is [Some newUrl] when the
    call is made and [None] when the function returns without it.  The
    argument is [None] when [window] is undefined. *)
Definition handleLanguageRedirect (window : option Window) : option string :=
  match window with
  | None => None
  | Some w =>
      let currentPath := location_pathname w in
      if String.eqb currentPath "/" || String.eqb currentPath ""
      then
        let detectedLang :=
          detectBrowserLanguage (Browser (window_navigator w)) in
        let newUrl := "/" ++ code detectedLang ++ "/" in
        Some newUrl
      else None
  end.

(** The window once the browser has followed [location.replace(newUrl)]
    with a path: the same browser, at the new pathname. *)
Definition after_replace (w : Window) (newUrl : string) : Window :=
  {| location_pathname := newUrl; window_navigator := window_navigator w |}.

(** [n] applications of [removeLanguagePrefix], the first one innermost. *)
Fixpoint strip_times (n : nat) (path : string) : string :=
  match n with
  | O => path
  | S n' => strip_times n' (removeLanguagePrefix path)
  end.

(** A JSON value that is neither an object nor an array: what [typeof]
    does not call an object, and [null]. *)
Definition is_primitive (j : Json) : bool :=
  match j with
  | JNull | JBool _ | JNum _ | JStr _ => true
  | JArr _ | JObj _ => false
  end.

(** The entry of a breadcrumb list moved [n] places further. *)
Definition shift_position (n : nat) (entry : ListItem) : ListItem :=
  {| li_type := li_type entry;
     li_position := n + li_position entry;
     li_name := li_name entry;
     li_item := li_item entry |}.

(** The phrases of the specification about paths, as predicates. *)

(** [removeLanguagePrefix] "removes a leading slash": one, if there is one. *)
Definition without_leading_slash (path : string) : string :=
  if JsString.startsWith path "/" then JsString.slice 1 path else path.

(** "The remainder begins with [<lang>/] or equals [<lang>] for a supported
    language." *)
Definition language_prefixed (p : string) : bool :=
  existsb (fun lang => has_prefix_of lang p) LANGUAGES.

(** "Exactly one leading slash." *)
Definition one_leading_slash (p : string) : bool :=
  JsString.startsWith p "/" && negb (JsString.startsWith p "//").

(** "The first non-empty segment" of a path split on slashes. *)
Definition first_non_empty_segment (path : string) : option string :=
  find JsString.truthy (JsString.split "/" path).

(** What stands in a string before the first occurrence of a code unit. *)
Fixpoint before_first (c : ascii) (s : string) : string :=
  match s with
  | EmptyString => EmptyString
  | String a rest =>
      if Ascii.eqb a c then EmptyString else String a (before_first c rest)
  end.

(** "The leading subtag before any regional suffix": what stands before
    the first hyphen. *)
Definition leading_subtag (tag : string) : string := before_first "-" tag.

(** "Strips a known deployment base-path prefix if present." *)
Definition without_base_path (pathname : string) : string :=
  if JsString.startsWith pathname "/vinc-placement-website/"
  then JsString.slice (String.length "/vinc-placement-website") pathname
  else pathname.

(** A path "starting with [/<lang>/] or equal to [/<lang>]". *)
Definition begins_with_language (lang : Language) (path : string) : bool :=
  JsString.startsWith path ("/" ++ code lang ++ "/")
  || String.eqb path ("/" ++ code lang).

(** "The first preference" the environment advertises: [navigator.language],
    which browsers keep equal to the head of [navigator.languages], and
    that head when [language] is missing or empty.  An empty tag advertises
    nothing. *)
Definition first_preference (nav : Navigator) : option string :=
  match language nav with
  | Some tag => if JsString.truthy tag then Some tag else
                  match optional_first (languages nav) with
                  | Some tag' => if JsString.truthy tag' then Some tag' else None
                  | None => None
                  end
  | None => match optional_first (languages nav) with
            | Some tag' => if JsString.truthy tag' then Some tag' else None
            | None => None
            end
  end.

(** "Returns it if it belongs to the supported set; otherwise returns the
    default language." *)
Definition supported_or_default (subtag : string) : Language :=
  match as_Language subtag with
  | Some lang => lang
  | None => DEFAULT_LANG
  end.

(** A URL constructor that accepts no string: enough for the calls below,
    which pass [URL] objects. *)
Definition no_string_URL (url base : string) : option URL := None.

(* ================================================================= *)
(** * Properties *)

(** ** Strings *)

Section StringFacts.

Import JsString.

Lemma startsWith_append (pre rest : string) :
  startsWith (pre ++ rest) pre = true.
Proof.
  induction pre as [|c pre IH]; simpl; [reflexivity|].
  now rewrite Ascii.eqb_refl, IH.
Qed.

Lemma startsWith_inv (s pre : string) :
  startsWith s pre = true -> s = pre ++ slice (String.length pre) s.
Proof.
  revert s; induction pre as [|c pre IH]; intros s H; simpl in *.
  - reflexivity.
  - destruct s as [|d s]; [discriminate|].
    apply andb_true_iff in H as [Hc Hs].
    apply Ascii.eqb_eq in Hc; subst d.
    simpl. f_equal. now apply IH.
Qed.

Lemma slice_append (pre rest : string) :
  slice (String.length pre) (pre ++ rest) = rest.
Proof. induction pre; simpl; auto. Qed.

Lemma length_slice (n : nat) (s : string) :
  String.length (slice n s) = String.length s - n.
Proof.
  revert s; induction n as [|n IH]; intros [|c s]; simpl; auto.
Qed.

Lemma length_append (a b : string) :
  String.length (a ++ b) = String.length a + String.length b.
Proof. induction a; simpl; auto. Qed.

Lemma split_not_nil (c : ascii) (s : string) : split c s <> [].
Proof.
  induction s as [|a s IH]; simpl; [discriminate|].
  destruct (Ascii.eqb a c); [discriminate|].
  destruct (split c s); [contradiction|discriminate].
Qed.

Lemma truthy_false (s : string) : truthy s = false <-> s = "".
Proof.
  unfold truthy. rewrite negb_false_iff. apply String.eqb_eq.
Qed.

End StringFacts.

(** ** [removeLanguagePrefix] *)

Lemma code_length (lang : Language) : String.length (code lang) = 2.
Proof. now destruct lang. Qed.

Lemma has_prefix_of_length (lang : Language) (p : string) :
  has_prefix_of lang p = true -> 2 <= String.length p.
Proof.
  unfold has_prefix_of. intros H. apply orb_true_iff in H as [H|H].
  - apply startsWith_inv in H. rewrite H, !length_append, code_length.
    lia.
  - apply String.eqb_eq in H. subst p. rewrite code_length. lia.
Qed.

Lemma strip_loop_None (langs : list Language) (p : string) :
  strip_loop langs p = None <->
  existsb (fun lang => has_prefix_of lang p) langs = false.
Proof.
  induction langs as [|lang rest IH]; simpl.
  - tauto.
  - destruct (has_prefix_of lang p); simpl; [split; discriminate|exact IH].
Qed.

Lemma strip_loop_Some (langs : list Language) (p r : string) :
  strip_loop langs p = Some r ->
  exists lang, In lang langs /\ has_prefix_of lang p = true /\
               r = "/" ++ JsString.slice (String.length (code lang) + 1) p.
Proof.
  induction langs as [|lang rest IH]; simpl; [discriminate|].
  destruct (has_prefix_of lang p) eqn:E.
  - intros [= <-]. exists lang. auto.
  - intros H. destruct (IH H) as (l & Hin & Hl & Hr). exists l. auto.
Qed.

Lemma removeLanguagePrefix_unfold (path : string) :
  removeLanguagePrefix path =
  match strip_loop LANGUAGES (without_leading_slash path) with
  | Some stripped => stripped
  | None => "/" ++ without_leading_slash path
  end.
Proof. reflexivity. Qed.

Lemma removeLanguagePrefix_slash (path : string) :
  exists q, removeLanguagePrefix path = "/" ++ q.
Proof.
  rewrite removeLanguagePrefix_unfold.
  destruct (strip_loop LANGUAGES (without_leading_slash path)) eqn:E.
  - apply strip_loop_Some in E as (l & _ & _ & ->). eauto.
  - eauto.
Qed.

Lemma removeLanguagePrefix_no_prefix (path : string) :
  language_prefixed (without_leading_slash path) = false ->
  removeLanguagePrefix path = "/" ++ without_leading_slash path.
Proof.
  intros H. rewrite removeLanguagePrefix_unfold.
  apply strip_loop_None in H. fold LANGUAGES in H. now rewrite H.
Qed.

Lemma removeLanguagePrefix_shorter (path : string) :
  language_prefixed (without_leading_slash path) = true ->
  String.length (removeLanguagePrefix path)
  < String.length ("/" ++ without_leading_slash path).
Proof.
  intros H. rewrite removeLanguagePrefix_unfold.
  destruct (strip_loop LANGUAGES (without_leading_slash path)) eqn:E.
  - apply strip_loop_Some in E as (l & _ & Hl & ->).
    apply has_prefix_of_length in Hl.
    simpl. rewrite length_slice, code_length. lia.
  - apply strip_loop_None in E. unfold language_prefixed in H. congruence.
Qed.

Lemma without_leading_slash_slash (q : string) :
  without_leading_slash ("/" ++ q) = q.
Proof. reflexivity. Qed.

(** C3 (as the code has it): applying [removeLanguagePrefix] a second time
    changes nothing exactly when the first result does not itself begin with
    a supported-language prefix; one prefix is removed per application. *)
Theorem removeLanguagePrefix_twice (p : string) :
  removeLanguagePrefix (removeLanguagePrefix p) = removeLanguagePrefix p <->
  language_prefixed (without_leading_slash (removeLanguagePrefix p)) = false.
Proof.
  destruct (removeLanguagePrefix_slash p) as [q Hq]. rewrite Hq.
  split.
  - intros Heq.
    destruct (language_prefixed (without_leading_slash ("/" ++ q))) eqn:E;
      [|reflexivity].
    apply removeLanguagePrefix_shorter in E.
    rewrite Heq, without_leading_slash_slash in E. lia.
  - intros H. rewrite (removeLanguagePrefix_no_prefix _ H).
    now rewrite without_leading_slash_slash.
Qed.

Lemma removeLanguagePrefix_twice_witness :
  removeLanguagePrefix (removeLanguagePrefix "/en/about")
  = removeLanguagePrefix "/en/about".
Proof.
  exact (proj2 (removeLanguagePrefix_twice "/en/about") eq_refl).
Defined.

(** C3 fails as stated: ["/en/en/about"] loses one prefix at each of the two
    applications. *)
Lemma removeLanguagePrefix_not_idempotent :
  removeLanguagePrefix "/en/en/about" = "/en/about" /\
  removeLanguagePrefix (removeLanguagePrefix "/en/en/about") = "/about" /\
  removeLanguagePrefix (removeLanguagePrefix "/en/en/about")
  <> removeLanguagePrefix "/en/en/about".
Proof. repeat split; try reflexivity. discriminate. Qed.

(** C8 (as the code has it): for a path without a supported-language prefix,
    [removeLanguagePrefix] returns the path itself when it begins with a
    slash and the path with one slash put in front otherwise; the result
    has exactly one leading slash unless the input begins with two. *)
Theorem removeLanguagePrefix_without_prefix (p : string) :
  language_prefixed (without_leading_slash p) = false ->
  removeLanguagePrefix p = (if JsString.startsWith p "/" then p else "/" ++ p)
  /\ (JsString.startsWith p "//" = false ->
      one_leading_slash (removeLanguagePrefix p) = true).
Proof.
  intros H. rewrite (removeLanguagePrefix_no_prefix _ H).
  unfold without_leading_slash, one_leading_slash.
  destruct p as [|c p]; simpl; [auto|].
  destruct (Ascii.eqb c "/") eqn:Ec; simpl.
  - apply Ascii.eqb_eq in Ec. subst c. split; [reflexivity|].
    intros ->. reflexivity.
  - split; [reflexivity|]. now rewrite Ec.
Qed.

Lemma removeLanguagePrefix_without_prefix_witness :
  language_prefixed (without_leading_slash "contact") = false /\
  removeLanguagePrefix "contact" = "/contact" /\
  one_leading_slash (removeLanguagePrefix "contact") = true.
Proof.
  split; [reflexivity|].
  destruct (removeLanguagePrefix_without_prefix "contact" eq_refl) as [H1 H2].
  split; [exact H1|exact (H2 eq_refl)].
Defined.

(** C8 fails as stated: ["//x"] carries no language prefix and comes back
    with its two leading slashes. *)
Lemma removeLanguagePrefix_two_slashes :
  language_prefixed (without_leading_slash "//x") = false /\
  removeLanguagePrefix "//x" = "//x" /\
  one_leading_slash (removeLanguagePrefix "//x") = false.
Proof. repeat split. Qed.

(** ** [getAlternateUrls] *)

(** C4: [getAlternateUrls p] has one entry per supported language, three in
    all, in the declared order [en], [ja], [th], none left out, and the
    [href] of the entry of a language is ["/"], its code and [p]. *)
Theorem getAlternateUrls_spec (p : string) :
  length (getAlternateUrls p) = length LANGUAGES /\
  length (getAlternateUrls p) = 3 /\
  map alt_lang (getAlternateUrls p) = [en; ja; th] /\
  map alt_lang (getAlternateUrls p) = LANGUAGES /\
  map alt_href (getAlternateUrls p)
  = map (fun lang => "/" ++ code lang ++ p) LANGUAGES /\
  Forall (fun entry => alt_href entry = "/" ++ code (alt_lang entry) ++ p)
         (getAlternateUrls p).
Proof.
  repeat split. repeat constructor.
Qed.

(** ** [getLangFromUrl] *)

Section SplitFacts.

Import JsString.

Lemma split_head (c : ascii) (s : string) :
  hd "" (split c s) = before_first c s.
Proof.
  induction s as [|a s IH]; simpl; [reflexivity|].
  destruct (Ascii.eqb a c); [reflexivity|].
  destruct (split c s) as [|piece pieces] eqn:E.
  - now apply split_not_nil in E.
  - simpl in *. now rewrite IH.
Qed.

Lemma nth_error_split_0 (c : ascii) (s : string) :
  nth_error (split c s) 0 = Some (before_first c s).
Proof.
  rewrite <- split_head.
  destruct (split c s) eqn:E; [now apply split_not_nil in E|reflexivity].
Qed.

(** A string without [c] stands before the first [c] of [q] exactly when
    [q] is that string or continues it with [c]. *)
Lemma before_first_eqb (c : ascii) (s q : string) :
  before_first c s = s ->
  String.eqb s (before_first c q)
  = startsWith q (s ++ String c "") || String.eqb q s.
Proof.
  revert q; induction s as [|d s IH]; intros q Hs.
  - destruct q as [|a q]; simpl; [reflexivity|].
    destruct (Ascii.eqb a c); reflexivity.
  - simpl in Hs. destruct (Ascii.eqb d c) eqn:Edc; [discriminate|].
    injection Hs as Hs.
    destruct q as [|a q]; simpl; [reflexivity|].
    destruct (Ascii.eqb a c) eqn:Eac; simpl.
    + apply Ascii.eqb_eq in Eac. subst a.
      rewrite (Ascii.eqb_sym c d), Edc. reflexivity.
    + rewrite (Ascii.eqb_sym d a).
      destruct (Ascii.eqb a d); simpl; [now apply IH|reflexivity].
Qed.

Lemma startsWith_shorter (s a b : string) :
  startsWith s (a ++ b) = true -> startsWith s a = true.
Proof.
  revert s; induction a as [|c a IH]; intros s H; simpl in *; [reflexivity|].
  destruct s as [|d s]; [discriminate|].
  apply andb_true_iff in H as [-> H]. simpl. now apply IH.
Qed.

Lemma replace_at_start (pat rep s : string) :
  startsWith s pat = true ->
  replace pat rep s = rep ++ slice (String.length pat) s.
Proof. intros H. destruct s; simpl; now rewrite H. Qed.

End SplitFacts.

Lemma has_prefix_of_segment (lang : Language) (q : string) :
  has_prefix_of lang q = String.eqb (code lang) (before_first "/" q).
Proof.
  unfold has_prefix_of. symmetry.
  apply (before_first_eqb "/" (code lang) q). now destruct lang.
Qed.

Lemma begins_with_language_slash (lang : Language) (q : string) :
  begins_with_language lang ("/" ++ q) = has_prefix_of lang q.
Proof. reflexivity. Qed.

Lemma second_segment_slash (q : string) :
  second_segment ("/" ++ q) = Some (before_first "/" q).
Proof. unfold second_segment. simpl. apply nth_error_split_0. Qed.

(** The path the code goes on with is the path without the base path. *)
Lemma base_path_replaced (pathname : string) :
  (if JsString.startsWith pathname "/vinc-placement-website/"
   then JsString.replace "/vinc-placement-website" "" pathname
   else pathname)
  = without_base_path pathname.
Proof.
  unfold without_base_path.
  destruct (JsString.startsWith pathname "/vinc-placement-website/") eqn:E;
    [|reflexivity].
  apply replace_at_start.
  now apply (startsWith_shorter pathname "/vinc-placement-website" "/").
Qed.

Lemma without_base_path_slash (pathname : string) :
  JsString.startsWith pathname "/" = true ->
  exists q, without_base_path pathname = "/" ++ q.
Proof.
  intros H. unfold without_base_path.
  destruct (JsString.startsWith pathname "/vinc-placement-website/") eqn:E.
  - apply startsWith_inv in E. rewrite E. simpl. eauto.
  - apply startsWith_inv in H. rewrite H. simpl. eauto.
Qed.

(** The choice made on the segment after the leading slash. *)
Lemma language_of_segment (seg : string) :
  (if JsString.truthy seg
   then match as_Language seg with Some lang => lang | None => DEFAULT_LANG end
   else DEFAULT_LANG)
  = match find (fun lang => String.eqb (code lang) seg) LANGUAGES with
    | Some lang => lang
    | None => DEFAULT_LANG
    end.
Proof.
  destruct (JsString.truthy seg) eqn:E; [reflexivity|].
  apply truthy_false in E. now subst seg.
Qed.

(** C5 (as the code has it): for a URL whose pathname begins with a slash,
    as every http(s) pathname does, [getLangFromUrl] returns the supported
    language [L] when the pathname without the base path equals [/L] or
    starts with [/L/], and the default language otherwise: the segment
    tested is the one right after the leading slash. *)
Theorem getLangFromUrl_spec (new_URL : string -> string -> option URL)
    (u : URL) :
  JsString.startsWith (pathname u) "/" = true ->
  getLangFromUrl new_URL (inl u)
  = Some match find (fun lang =>
                       begins_with_language lang
                         (without_base_path (pathname u))) LANGUAGES with
         | Some lang => lang
         | None => DEFAULT_LANG
         end.
Proof.
  intros Hslash. unfold getLangFromUrl.
  rewrite base_path_replaced.
  destruct (without_base_path_slash _ Hslash) as [q ->].
  rewrite second_segment_slash, language_of_segment. f_equal.
  unfold LANGUAGES. cbn [find].
  rewrite !begins_with_language_slash, !has_prefix_of_segment.
  reflexivity.
Qed.

Lemma getLangFromUrl_spec_witness :
  getLangFromUrl no_string_URL (inl (mkURL "/vinc-placement-website/th/about"))
  = Some th.
Proof.
  exact (getLangFromUrl_spec no_string_URL
           (mkURL "/vinc-placement-website/th/about") eq_refl).
Defined.

(** C5 fails as stated: in ["//en/about"] the first non-empty segment is the
    supported [en], and the code, which looks at the empty segment between
    the two slashes, answers the default language. *)
Lemma getLangFromUrl_first_non_empty :
  first_non_empty_segment (without_base_path "//en/about") = Some "en" /\
  as_Language "en" = Some en /\
  getLangFromUrl no_string_URL (inl (mkURL "//en/about")) = Some ja /\
  DEFAULT_LANG = ja.
Proof. repeat split. Qed.

(** A string argument is the same call on the URL object the platform
    makes of it, and an error when the platform cannot. *)
Lemma getLangFromUrl_string (new_URL : string -> string -> option URL)
    (s : string) :
  getLangFromUrl new_URL (inr s)
  = match new_URL s "http://localhost" with
    | Some u => getLangFromUrl new_URL (inl u)
    | None => None
    end.
Proof. unfold getLangFromUrl. now destruct (new_URL s "http://localhost"). Qed.

(** ** [detectBrowserLanguage] *)

Lemma browserLang_first_preference (nav : Navigator) (p : string) :
  first_preference nav = Some p -> browserLang nav = p.
Proof.
  unfold first_preference, browserLang, or_string.
  destruct (language nav) as [tag|];
    [destruct (JsString.truthy tag) eqn:Et|];
    try (intros [= <-]; cbn; now rewrite Et);
    (destruct (optional_first (languages nav)) as [tag'|]; [|discriminate]);
    (destruct (JsString.truthy tag') eqn:Et'; [|discriminate]);
    intros [= <-]; cbn; now rewrite ?Et'.
Qed.

Lemma langCode_leading_subtag (tag : string) :
  langCode tag = JsString.toLowerCase (leading_subtag tag).
Proof. unfold langCode, leading_subtag. now rewrite split_head. Qed.

(** X7: with a browser, the answer is made from the first advertised
    preference alone: its leading subtag, lower-cased, when that is a
    supported language, the default language otherwise. *)
Lemma detectBrowserLanguage_first_preference (nav : Navigator) (p : string) :
  first_preference nav = Some p ->
  detectBrowserLanguage (Browser nav)
  = supported_or_default (JsString.toLowerCase (leading_subtag p)).
Proof.
  intros Hp. unfold detectBrowserLanguage, supported_or_default.
  now rewrite (browserLang_first_preference _ _ Hp), langCode_leading_subtag.
Qed.

(** Without a browser the default language is the answer. *)
Lemma detectBrowserLanguage_no_window :
  detectBrowserLanguage NoWindow = DEFAULT_LANG.
Proof. reflexivity. Qed.

(** What follows the first entry of the list of preferences is never
    looked at. *)
Lemma detectBrowserLanguage_no_scan (tag : option string) (first : string)
    (rest rest' : list string) :
  detectBrowserLanguage (Browser (mkNavigator tag (Some (first :: rest))))
  = detectBrowserLanguage (Browser (mkNavigator tag (Some (first :: rest')))).
Proof. reflexivity. Qed.

Lemma detectBrowserLanguage_unsupported_first :
  detectBrowserLanguage (Browser (mkNavigator (Some "fr-FR")
                                              (Some ["fr-FR"; "en-US"])))
  = ja.
Proof.
  exact (detectBrowserLanguage_first_preference
           (mkNavigator (Some "fr-FR") (Some ["fr-FR"; "en-US"]))
           "fr-FR" eq_refl).
Defined.

(** C7 (where the code departs from it): when a browser advertises no
    preference, the literal ['en'] of the source stands in for one, and
    [detectBrowserLanguage] answers English, which is not the default
    language. *)
Theorem detectBrowserLanguage_nothing_advertised (nav : Navigator) :
  first_preference nav = None ->
  detectBrowserLanguage (Browser nav) = en /\ en <> DEFAULT_LANG.
Proof.
  intros H. split; [|discriminate]. revert H.
  unfold first_preference, detectBrowserLanguage, browserLang, or_string.
  destruct (language nav) as [tag|].
  - destruct (JsString.truthy tag) eqn:Et; [discriminate|].
    destruct (optional_first (languages nav)) as [tag'|]; [|reflexivity].
    destruct (JsString.truthy tag') eqn:Et'; [discriminate|reflexivity].
  - destruct (optional_first (languages nav)) as [tag'|]; [|reflexivity].
    destruct (JsString.truthy tag') eqn:Et'; [discriminate|reflexivity].
Qed.

Lemma detectBrowserLanguage_nothing_advertised_witness :
  detectBrowserLanguage (Browser (mkNavigator (Some "") (Some []))) = en.
Proof.
  exact (proj1 (detectBrowserLanguage_nothing_advertised
                  (mkNavigator (Some "") (Some [])) eq_refl)).
Defined.

(** ** [generateSEOMeta] *)

(** C6: the title of the record is the page title, [" | "] and the site
    name; its canonical URL is the site URL, ["/"], the language and the
    path; its keywords are the site-wide keywords followed by those of the
    page, in order, every occurrence kept. *)
Theorem generateSEOMeta_spec (title description : string) (lang : Language)
    (path : string) (keywords : list string) (image : option string) :
  let meta :=
    generateSEOMeta (mkSEOParams title description lang
                                 (Some path) (Some keywords) image) in
  meta_title meta = title ++ " | " ++ site_name SITE_CONFIG /\
  meta_title meta = title ++ " | VINC Placement" /\
  meta_canonical meta = site_url SITE_CONFIG ++ "/" ++ code lang ++ path /\
  meta_keywords meta = (SEO_KEYWORDS ++ keywords)%list /\
  length (meta_keywords meta) = length SEO_KEYWORDS + length keywords /\
  forall k : string,
    count_occ string_dec (meta_keywords meta) k
    = count_occ string_dec SEO_KEYWORDS k + count_occ string_dec keywords k.
Proof.
  cbv zeta. unfold generateSEOMeta. cbn [meta_title meta_canonical
    meta_keywords param_title param_lang param_path param_keywords default_to].
  repeat split.
  intros k. apply count_occ_app.
Qed.

(** When the path and the keywords are left out, ["/"] and no keyword
    take their place. *)
Lemma generateSEOMeta_defaults (title description : string) (lang : Language)
    (image : option string) :
  let meta :=
    generateSEOMeta (mkSEOParams title description lang None None image) in
  meta_canonical meta = site_url SITE_CONFIG ++ "/" ++ code lang ++ "/" /\
  meta_keywords meta = SEO_KEYWORDS /\
  meta_alternates meta = getAlternateUrls "/".
Proof.
  cbv zeta. unfold generateSEOMeta. cbn [meta_canonical meta_keywords
    meta_alternates param_lang param_path param_keywords default_to].
  repeat split.
Qed.

(** ** [generateBreadcrumbSchema] *)

Lemma map_indexed_length {A B : Type} (f : A -> nat -> B) (index : nat)
    (items : list A) :
  length (map_indexed f index items) = length items.
Proof.
  revert index; induction items as [|x items IH]; intros index; simpl;
    [reflexivity|]. now rewrite IH.
Qed.

Lemma map_indexed_nth_error {A B : Type} (f : A -> nat -> B) (index : nat)
    (items : list A) (i : nat) :
  nth_error (map_indexed f index items) i
  = option_map (fun x => f x (index + i)) (nth_error items i).
Proof.
  revert index i; induction items as [|x items IH]; intros index [|i]; simpl;
    try reflexivity.
  - now rewrite Nat.add_0_r.
  - rewrite IH. now rewrite Nat.add_succ_r.
Qed.

Lemma map_indexed_map {A B C : Type} (f : A -> nat -> B) (g : B -> C)
    (index : nat) (items : list A) :
  map g (map_indexed f index items)
  = map_indexed (fun x i => g (f x i)) index items.
Proof.
  revert index; induction items as [|x items IH]; intros index; simpl;
    [reflexivity|]. now rewrite IH.
Qed.

Lemma map_indexed_positions {A : Type} (index : nat) (items : list A) :
  map_indexed (fun _ i => i + 1) index items = seq (index + 1) (length items).
Proof.
  revert index; induction items as [|x items IH]; intros index; simpl;
    [reflexivity|]. now rewrite IH.
Qed.

Lemma map_indexed_no_index {A B : Type} (g : A -> B) (index : nat)
    (items : list A) :
  map_indexed (fun x _ => g x) index items = map g items.
Proof.
  revert index; induction items as [|x items IH]; intros index; simpl;
    [reflexivity|]. now rewrite IH.
Qed.

(** C10: the [itemListElement] of the schema has the length and the order
    of the input; its entry at index [i] has position [i + 1], the name of
    [items[i]] and, as item, the site URL followed by the url of
    [items[i]]. *)
Theorem generateBreadcrumbSchema_spec (items : list Breadcrumb) :
  let entries := itemListElement (generateBreadcrumbSchema items) in
  length entries = length items /\
  map li_position entries = seq 1 (length items) /\
  map li_name entries = map crumb_name items /\
  map li_item entries
  = map (fun item => site_url SITE_CONFIG ++ crumb_url item) items /\
  forall i : nat,
    nth_error entries i
    = option_map (fun item =>
                    {| li_type := "ListItem";
                       li_position := i + 1;
                       li_name := crumb_name item;
                       li_item := site_url SITE_CONFIG ++ crumb_url item |})
                 (nth_error items i).
Proof.
  cbv zeta. unfold generateBreadcrumbSchema. cbn [itemListElement].
  split; [apply map_indexed_length|].
  split; [rewrite map_indexed_map; cbn [li_position];
          apply (map_indexed_positions 0)|].
  split; [rewrite map_indexed_map; cbn [li_name];
          apply (map_indexed_no_index crumb_name)|].
  split; [rewrite map_indexed_map; cbn [li_item];
          apply (map_indexed_no_index
                   (fun item => site_url SITE_CONFIG ++ crumb_url item))|].
  intros i. now rewrite map_indexed_nth_error.
Qed.

(** ** [t] *)

Section Translation.

Context (h : Host) (translations : Language -> Translations).

Implicit Types (fallback result : JsVal) (key : string).

(** The [||] of the first line picks the tree of the language asked
    for: an object is truthy. *)
Lemma langTranslations_of (lang : Language) :
  Js.or (VJson (JObj (translations lang)))
        (VJson (JObj (translations DEFAULT_LANG)))
  = VJson (JObj (translations lang)).
Proof. reflexivity. Qed.

Lemma or_defined fallback key : Js.or fallback (VStr key) <> VUndef.
Proof.
  unfold Js.or. destruct (Js.truthy fallback) eqn:E; [|discriminate].
  intros ->. discriminate.
Qed.

(** The guard of the loop lets through the objects, the arrays and the
    two prototypes, and on each of them the read ends normally. *)
Lemma guarded_Get result (k : string) :
  Js.truthy result && String.eqb (Js.typeof result) "object" = true ->
  exists next, Js.Get h result k = Js.Normal next.
Proof.
  destruct result as [|[]| | |]; simpl; try discriminate; eauto.
  all: rewrite andb_false_r; discriminate.
Qed.

Lemma walk_normal fallback key (keys : list string) :
  forall result, exists e, walk h fallback key result keys = Js.Normal e.
Proof.
  induction keys as [|k rest IH]; intros result; simpl; [eauto|].
  destruct (Js.truthy result && String.eqb (Js.typeof result) "object")
    eqn:G; [|eauto].
  destruct (guarded_Get result k G) as [next ->]. apply IH.
Qed.

Lemma walk_Returned fallback key (keys : list string) :
  forall result v,
    walk h fallback key result keys = Js.Normal (Returned v) ->
    v = Js.or fallback (VStr key).
Proof.
  induction keys as [|k rest IH]; intros result v; simpl; [discriminate|].
  destruct (Js.truthy result && String.eqb (Js.typeof result) "object").
  - destruct (Js.Get h result k); [apply IH|discriminate].
  - now intros [= <-].
Qed.

(** X16: [t] always ends normally, and never with [undefined]: the guard
    of its loop keeps every property read away from [undefined], [null],
    the other primitives and the functions. *)
Lemma t_total_defined (lang : Language) key fallback :
  exists v, t h translations lang key fallback = Js.Normal v /\ v <> VUndef.
Proof.
  unfold t.
  destruct (walk_normal fallback key (JsString.split "." key)
              (Js.or (VJson (JObj (translations lang)))
                     (VJson (JObj (translations DEFAULT_LANG)))))
    as [[v|result] E]; rewrite E.
  - exists v. split; [reflexivity|].
    apply walk_Returned in E. subst v. apply or_defined.
  - destruct result as [|j|name| |]; simpl;
      eexists; (split; [reflexivity|]);
      first [apply or_defined | discriminate].
Qed.

(** *** Keys that are present *)

Lemma walk_stored fallback key (path : list string) :
  forall (tree j : Json),
    stored_at tree path = Some j ->
    walk h fallback key (VJson tree) path = Js.Normal (Finished (VJson j)).
Proof.
  induction path as [|k rest IH]; intros tree j; simpl.
  - now intros [= <-].
  - destruct tree as [| | | | |members]; try discriminate.
    destruct (Js.own members k) as [sub|] eqn:E; [|discriminate].
    intros H. now apply IH.
Qed.

(** C1: when the path of the key [K], split at its dots, is present in
    the tree of the language [L], [t(L, K)] returns the value stored at
    that path, whatever it is (string, sequence, sub-tree), unchanged,
    with or without a fallback. *)
Theorem t_present (lang : Language) key fallback (j : Json) :
  stored_at (JObj (translations lang)) (JsString.split "." key) = Some j ->
  t h translations lang key fallback = Js.Normal (VJson j).
Proof.
  intros H. unfold t. rewrite langTranslations_of.
  now rewrite (walk_stored fallback key _ _ _ H).
Qed.

(** *** Keys that are absent *)

Lemma not_host_supplied (k : string) :
  host_supplied h k = false ->
  Js.mem k (object_members h) = false /\
  Js.mem k (array_members h) = false /\
  String.eqb k "__proto__" = false /\
  String.eqb k "length" = false /\
  Js.array_index k = None.
Proof.
  unfold host_supplied. intros H.
  repeat (apply orb_false_iff in H; destruct H as [H ?]).
  repeat split; auto.
  destruct (Js.array_index k); [discriminate|reflexivity].
Qed.

Lemma Get_object_nothing (members : list (string * Json)) (k : string) :
  host_supplied h k = false ->
  Js.own members k = None ->
  Js.Get h (VJson (JObj members)) k = Js.Normal VUndef.
Proof.
  intros Hk Hown. apply not_host_supplied in Hk as (Ho & _ & Hp & _ & _).
  simpl. rewrite Hown. unfold Js.inherited_by_object, Js.of_Object_prototype.
  now rewrite Hp, Ho.
Qed.

Lemma Get_array_nothing (items : list Json) (k : string) :
  host_supplied h k = false ->
  Js.Get h (VJson (JArr items)) k = Js.Normal VUndef.
Proof.
  intros Hk. apply not_host_supplied in Hk as (Ho & Ha & Hp & Hl & Hi).
  simpl. unfold Js.own_of_array, Js.inherited_by_array,
    Js.own_of_Array_prototype, Js.of_Object_prototype.
  now rewrite Hl, Hi, Hp, Ha, Ho.
Qed.

Lemma walk_undefined fallback key (keys : list string) :
  gives_up fallback key (walk h fallback key VUndef keys).
Proof. destruct keys; [left|right]; reflexivity. Qed.

Lemma walk_absent fallback key (path : list string) :
  forall tree : Json,
    forallb (fun k => negb (host_supplied h k)) path = true ->
    stored_at tree path = None ->
    gives_up fallback key (walk h fallback key (VJson tree) path).
Proof.
  induction path as [|k rest IH]; intros tree Hpath Habs; [discriminate|].
  simpl in Hpath. apply andb_true_iff in Hpath as [Hk Hrest].
  apply negb_true_iff in Hk.
  destruct tree as [|b|z|s|items|members]; simpl in Habs.
  - right. reflexivity.
  - right. simpl. now rewrite andb_false_r.
  - right. simpl. now rewrite andb_false_r.
  - right. simpl. now rewrite andb_false_r.
  - cbn [walk Js.truthy Js.typeof String.eqb andb].
    change (String.eqb "object" "object") with true. cbn [andb].
    rewrite (Get_array_nothing items k Hk). apply walk_undefined.
  - cbn [walk Js.truthy Js.typeof andb].
    change (String.eqb "object" "object") with true. cbn [andb].
    destruct (Js.own members k) as [sub|] eqn:E.
    + simpl. rewrite E. now apply IH.
    + rewrite (Get_object_nothing members k Hk E). apply walk_undefined.
Qed.

(** C2 (as the code has it): when the path of the key [K] is absent from
    the tree of [L] and no segment of [K] names something the runtime
    supplies by itself (an inherited member, an array index or [length]),
    [t(L, K)] returns the fallback when that is truthy, and [K] unchanged
    when no fallback is given or the fallback is falsy. *)
Theorem t_absent (lang : Language) key fallback :
  stored_at (JObj (translations lang)) (JsString.split "." key) = None ->
  forallb (fun k => negb (host_supplied h k)) (JsString.split "." key)
  = true ->
  t h translations lang key fallback
  = Js.Normal (if Js.truthy fallback then fallback else VStr key)
  /\ t h translations lang key VUndef = Js.Normal (VStr key).
Proof.
  intros Habs Hplain.
  assert (G : forall fb, t h translations lang key fb
                         = Js.Normal (Js.or fb (VStr key))).
  { intros fb. unfold t. rewrite langTranslations_of.
    destruct (walk_absent fb key _ _ Hplain Habs) as [-> | ->];
      reflexivity. }
  split; apply G.
Qed.

(** *** Keys that name an inherited member *)

(** C9 (where the code departs from it): on any tree without an entry
    ["toString"], [t(L, "toString")] returns the function every object
    inherits under that name, with or without a fallback: a value that is
    no JSON value, hence neither a stored translation nor the key. *)
Theorem t_inherited_member (lang : Language) fallback :
  Js.mem "toString" (object_members h) = true ->
  Js.own (translations lang) "toString" = None ->
  t h translations lang "toString" fallback
  = Js.Normal (VFun "Object.prototype.toString")
  /\ forall j : Json, VFun "Object.prototype.toString" <> VJson j.
Proof.
  intros Hm Hown. split; [|discriminate].
  unfold t. rewrite langTranslations_of.
  cbn. rewrite Hown. unfold Js.inherited_by_object, Js.of_Object_prototype.
  cbn. now rewrite Hm.
Qed.

End Translation.

Lemma t_present_witness :
  stored_at (JObj (sample_translations en)) (JsString.split "." "nav.home")
  = Some (JStr "Home") /\
  t es2022 sample_translations en "nav.home" VUndef = Js.Normal (VStr "Home").
Proof.
  split; [reflexivity|].
  exact (t_present es2022 sample_translations en "nav.home" VUndef
                   (JStr "Home") eq_refl).
Defined.

Lemma t_absent_witness :
  t es2022 sample_translations en "nav.missing" (VStr "Missing")
  = Js.Normal (VStr "Missing") /\
  t es2022 sample_translations en "nav.missing" VUndef
  = Js.Normal (VStr "nav.missing").
Proof.
  exact (t_absent es2022 sample_translations en "nav.missing" (VStr "Missing")
                  eq_refl eq_refl).
Defined.

(** C2 fails as stated: an empty string given as fallback is falsy, and
    [fallback || key] then answers the key. *)
Lemma t_empty_fallback :
  stored_at (JObj (sample_translations en)) (JsString.split "." "nav.missing")
  = None /\
  t es2022 sample_translations en "nav.missing" (VStr "")
  = Js.Normal (VStr "nav.missing") /\
  VStr "nav.missing" <> VStr "".
Proof. repeat split. discriminate. Qed.

Lemma t_inherited_member_witness :
  t es2022 sample_translations en "toString" VUndef
  = Js.Normal (VFun "Object.prototype.toString").
Proof.
  exact (proj1 (t_inherited_member es2022 sample_translations en VUndef
                                   eq_refl eq_refl)).
Defined.

(** More reads that the runtime answers by itself. *)
Example t_array_length :
  t es2022 sample_translations en "about.expertise_areas.length" VUndef
  = Js.Normal (VJson (JNum 2)).
Proof. reflexivity. Qed.

Example t_prototype_of_prototype :
  t es2022 sample_translations en "__proto__.__proto__" (VStr "fallback")
  = Js.Normal (VJson JNull).
Proof. reflexivity. Qed.

(** ** The examples of the documentation *)

Example removeLanguagePrefix_en_about :
  removeLanguagePrefix "/en/about" = "/about".
Proof. reflexivity. Qed.

Example removeLanguagePrefix_ja_root : removeLanguagePrefix "/ja/" = "/".
Proof. reflexivity. Qed.

Example getLangFromUrl_ja_about :
  getLangFromUrl no_string_URL (inl (mkURL "/ja/about")) = Some ja.
Proof. reflexivity. Qed.

Example getLangFromUrl_contact :
  getLangFromUrl no_string_URL (inl (mkURL "/contact")) = Some DEFAULT_LANG.
Proof. reflexivity. Qed.

Example getAlternateUrls_about :
  getAlternateUrls "/about"
  = [mkAlternate en "/en/about"; mkAlternate ja "/ja/about";
     mkAlternate th "/th/about"].
Proof. reflexivity. Qed.

Example t_expertise_areas :
  t es2022 sample_translations en "about.expertise_areas" VUndef
  = Js.Normal (VJson (JArr [JStr "Engineering"; JStr "Construction"])).
Proof. reflexivity. Qed.

Example generateSEOMeta_about :
  let meta := generateSEOMeta (mkSEOParams "About" "desc" en (Some "/about")
                                           (Some ["x"]) None) in
  meta_title meta = "About | VINC Placement" /\
  meta_canonical meta = "https://www.vincplacement.com/en/about" /\
  meta_keywords meta = (SEO_KEYWORDS ++ ["x"])%list /\
  meta_image meta = "https://www.vincplacement.com/images/og-image.jpg".
Proof. repeat split. Qed.

Example generateBreadcrumbSchema_home_about :
  itemListElement (generateBreadcrumbSchema
                     [mkBreadcrumb "Home" "/"; mkBreadcrumb "About" "/about"])
  = [mkListItem "ListItem" 1 "Home" "https://www.vincplacement.com/";
     mkListItem "ListItem" 2 "About" "https://www.vincplacement.com/about"].
Proof. reflexivity. Qed.

(* ================================================================= *)
(** * Further properties *)

(** ** Paths: how the utilities fit together *)

Lemma removeLanguagePrefix_length (path : string) :
  String.length (removeLanguagePrefix path) <= String.length path + 1.
Proof.
  rewrite removeLanguagePrefix_unfold.
  assert (Hlen : String.length (without_leading_slash path)
                 <= String.length path).
  { unfold without_leading_slash.
    destruct (JsString.startsWith path "/");
      [rewrite length_slice; lia|lia]. }
  destruct (strip_loop LANGUAGES (without_leading_slash path)) eqn:E.
  - apply strip_loop_Some in E as (l & _ & _ & ->).
    simpl. rewrite length_slice. lia.
  - simpl. lia.
Qed.

(** X1: whatever the input, the result of [removeLanguagePrefix] begins
    with a slash and is at most one unit longer than the input. *)
Theorem removeLanguagePrefix_rooted (path : string) :
  JsString.startsWith (removeLanguagePrefix path) "/" = true /\
  String.length (removeLanguagePrefix path) <= String.length path + 1.
Proof.
  split; [|apply removeLanguagePrefix_length].
  destruct (removeLanguagePrefix_slash path) as [q ->]. reflexivity.
Qed.

(** X2: a missing leading slash makes no difference: a path that does not
    begin with a slash is treated as the same path with one in front. *)
Theorem removeLanguagePrefix_leading_slash (path : string) :
  JsString.startsWith path "/" = false ->
  removeLanguagePrefix ("/" ++ path) = removeLanguagePrefix path.
Proof.
  intros H. rewrite !removeLanguagePrefix_unfold.
  rewrite without_leading_slash_slash.
  unfold without_leading_slash. now rewrite H.
Qed.

Lemma removeLanguagePrefix_leading_slash_witness :
  removeLanguagePrefix ("/" ++ "th/jobs") = removeLanguagePrefix "th/jobs".
Proof. exact (removeLanguagePrefix_leading_slash "th/jobs" eq_refl). Defined.

Lemma strip_times_rooted (q : string) :
  exists n, n <= String.length ("/" ++ q) /\
            removeLanguagePrefix (strip_times n ("/" ++ q))
            = strip_times n ("/" ++ q).
Proof.
  remember (String.length q) as m eqn:Hm.
  revert q Hm. induction m as [m IH] using lt_wf_ind. intros q Hm.
  destruct (language_prefixed q) eqn:E.
  - assert (Hshort := removeLanguagePrefix_shorter ("/" ++ q)).
    rewrite without_leading_slash_slash in Hshort. specialize (Hshort E).
    destruct (removeLanguagePrefix_slash ("/" ++ q)) as [q' Hq'].
    rewrite Hq' in Hshort. simpl in Hshort.
    destruct (IH (String.length q') ltac:(lia) q' eq_refl) as (n & Hn & Hfix).
    exists (S n). cbn [strip_times]. rewrite Hq'. split; [simpl in *; lia|].
    exact Hfix.
  - exists 0. split; [lia|]. cbn [strip_times].
    rewrite removeLanguagePrefix_no_prefix;
      now rewrite without_leading_slash_slash.
Qed.

(** X3: applying [removeLanguagePrefix] again and again comes to rest: for
    every path, after at most [length + 2] applications the result is a path
    that a further application leaves as it is. *)
Theorem removeLanguagePrefix_settles (path : string) :
  exists n, n <= String.length path + 2 /\
            removeLanguagePrefix (strip_times n path) = strip_times n path.
Proof.
  destruct (removeLanguagePrefix_slash path) as [q Hq].
  destruct (strip_times_rooted q) as (n & Hn & Hfix).
  exists (S n). cbn [strip_times]. rewrite Hq. split; [|exact Hfix].
  assert (Hlen := removeLanguagePrefix_length path).
  rewrite Hq in Hlen. lia.
Qed.

Lemma removeLanguagePrefix_href (lang : Language) (q : string) :
  removeLanguagePrefix ("/" ++ code lang ++ "/" ++ q) = "/" ++ q.
Proof. destruct lang; reflexivity. Qed.

Lemma getLangFromUrl_href (new_URL : string -> string -> option URL)
    (lang : Language) (q : string) :
  getLangFromUrl new_URL (inl (mkURL ("/" ++ code lang ++ "/" ++ q)))
  = Some lang.
Proof.
  unfold getLangFromUrl. cbn [pathname].
  rewrite base_path_replaced.
  assert (Hb : without_base_path ("/" ++ code lang ++ "/" ++ q)
               = "/" ++ code lang ++ "/" ++ q) by now destruct lang.
  rewrite Hb, second_segment_slash, language_of_segment.
  assert (Hs : before_first "/" (code lang ++ "/" ++ q) = code lang)
    by now destruct lang.
  rewrite Hs. now destruct lang.
Qed.



(** X5: a page is one of its own alternates: when a pathname starts with
    [/L/] for a supported language [L], [getLangFromUrl] answers [L],
    putting [/L] back in front of what [removeLanguagePrefix] leaves gives
    the pathname again, and the alternate links of the stripped path hold
    the pathname itself, under [L]. *)
Theorem page_among_its_alternates
    (new_URL : string -> string -> option URL) (lang : Language)
    (p : string) :
  JsString.startsWith p ("/" ++ code lang ++ "/") = true ->
  getLangFromUrl new_URL (inl (mkURL p)) = Some lang /\
  "/" ++ code lang ++ removeLanguagePrefix p = p /\
  In (mkAlternate lang p) (getAlternateUrls (removeLanguagePrefix p)).
Proof.
  intros H. apply startsWith_inv in H.
  set (q := JsString.slice (String.length ("/" ++ code lang ++ "/")) p) in H.
  assert (Hp : p = "/" ++ code lang ++ "/" ++ q)
    by (rewrite H at 1; now destruct lang).
  clearbody q. clear H. subst p.
  rewrite getLangFromUrl_href, removeLanguagePrefix_href.
  repeat split.
  unfold getAlternateUrls, LANGUAGES. cbn [map].
  destruct lang; simpl; auto.
Qed.

Lemma page_among_its_alternates_witness :
  getLangFromUrl no_string_URL (inl (mkURL "/th/services")) = Some th /\
  "/" ++ code th ++ removeLanguagePrefix "/th/services" = "/th/services" /\
  In (mkAlternate th "/th/services")
     (getAlternateUrls (removeLanguagePrefix "/th/services")).
Proof.
  exact (page_among_its_alternates no_string_URL th "/th/services" eq_refl).
Defined.

(** X6: the base path is removed once.  For a pathname that begins with a
    slash and not with the base path, [getLangFromUrl] gives the same
    language with [/vinc-placement-website] in front as without. *)
Theorem getLangFromUrl_under_base_path
    (new_URL : string -> string -> option URL) (p : string) :
  JsString.startsWith p "/" = true ->
  JsString.startsWith p "/vinc-placement-website/" = false ->
  getLangFromUrl new_URL (inl (mkURL ("/vinc-placement-website" ++ p)))
  = getLangFromUrl new_URL (inl (mkURL p)).
Proof.
  intros Hslash Hbase. unfold getLangFromUrl. cbn [pathname].
  rewrite !base_path_replaced.
  assert (H1 : without_base_path p = p)
    by (unfold without_base_path; now rewrite Hbase).
  assert (H2 : without_base_path ("/vinc-placement-website" ++ p) = p).
  { apply startsWith_inv in Hslash.
    set (q := JsString.slice (String.length "/") p) in Hslash.
    clearbody q. subst p. reflexivity. }
  now rewrite H1, H2.
Qed.

Lemma getLangFromUrl_under_base_path_witness :
  getLangFromUrl no_string_URL
    (inl (mkURL ("/vinc-placement-website" ++ "/en/contact")))
  = getLangFromUrl no_string_URL (inl (mkURL "/en/contact")).
Proof.
  exact (getLangFromUrl_under_base_path no_string_URL "/en/contact"
                                        eq_refl eq_refl).
Defined.

Lemma existsb_false_at {A : Type} (f : A -> bool) (l : list A) (x : A) :
  existsb f l = false -> In x l -> f x = false.
Proof.
  intros H Hin. destruct (f x) eqn:E; [|reflexivity].
  assert (existsb f l = true) by (apply existsb_exists; eauto). congruence.
Qed.

(** X17: the two readers of a path agree on a path without a language.
    For a pathname that begins with a slash and not with the base path: when
    [removeLanguagePrefix] finds no language prefix, it returns the pathname
    as it is, and [getLangFromUrl] answers the default language. *)
Theorem path_without_language
    (new_URL : string -> string -> option URL) (p : string) :
  JsString.startsWith p "/" = true ->
  JsString.startsWith p "/vinc-placement-website/" = false ->
  language_prefixed (without_leading_slash p) = false ->
  removeLanguagePrefix p = p /\
  getLangFromUrl new_URL (inl (mkURL p)) = Some DEFAULT_LANG.
Proof.
  intros Hslash Hbase Hnone.
  apply startsWith_inv in Hslash.
  set (q := JsString.slice (String.length "/") p) in Hslash.
  clearbody q. subst p. rewrite without_leading_slash_slash in Hnone.
  split.
  - rewrite removeLanguagePrefix_no_prefix;
      now rewrite without_leading_slash_slash.
  - unfold getLangFromUrl. cbn [pathname]. rewrite base_path_replaced.
    unfold without_base_path. rewrite Hbase.
    rewrite second_segment_slash, language_of_segment. f_equal.
    unfold LANGUAGES. cbn [find].
    rewrite <- !has_prefix_of_segment.
    unfold language_prefixed in Hnone.
    rewrite (existsb_false_at _ _ en Hnone), (existsb_false_at _ _ ja Hnone),
      (existsb_false_at _ _ th Hnone); simpl; auto.
Qed.

Lemma path_without_language_witness :
  removeLanguagePrefix "/contact" = "/contact" /\
  getLangFromUrl no_string_URL (inl (mkURL "/contact")) = Some DEFAULT_LANG.
Proof.
  exact (path_without_language no_string_URL "/contact"
                               eq_refl eq_refl eq_refl).
Defined.

(** ** The language of the browser, and the redirect from the root *)

Lemma lower_unit_hyphen (c : ascii) :
  Ascii.eqb (JsString.lower_unit c) "-" = Ascii.eqb c "-".
Proof. destruct c as [[] [] [] [] [] [] [] []]; reflexivity. Qed.

Lemma lower_unit_twice (c : ascii) :
  JsString.lower_unit (JsString.lower_unit c) = JsString.lower_unit c.
Proof. destruct c as [[] [] [] [] [] [] [] []]; reflexivity. Qed.

Lemma toLowerCase_twice (s : string) :
  JsString.toLowerCase (JsString.toLowerCase s) = JsString.toLowerCase s.
Proof.
  induction s as [|c s IH]; simpl; [reflexivity|].
  now rewrite lower_unit_twice, IH.
Qed.

Lemma toLowerCase_before_hyphen (s : string) :
  before_first "-" (JsString.toLowerCase s)
  = JsString.toLowerCase (before_first "-" s).
Proof.
  induction s as [|c s IH]; simpl; [reflexivity|].
  rewrite lower_unit_hyphen.
  destruct (Ascii.eqb c "-"); simpl; [reflexivity|now rewrite IH].
Qed.

Lemma truthy_toLowerCase (s : string) :
  JsString.truthy (JsString.toLowerCase s) = JsString.truthy s.
Proof. now destruct s. Qed.

Lemma langCode_toLowerCase (s : string) :
  langCode (JsString.toLowerCase s) = langCode s.
Proof.
  rewrite !langCode_leading_subtag. unfold leading_subtag.
  now rewrite toLowerCase_before_hyphen, toLowerCase_twice.
Qed.

Lemma detectBrowserLanguage_lower (tag : string)
    (others : option (list string)) :
  detectBrowserLanguage (Browser (mkNavigator (Some tag) others))
  = detectBrowserLanguage
      (Browser (mkNavigator (Some (JsString.toLowerCase tag)) others)).
Proof.
  unfold detectBrowserLanguage, browserLang, or_string. cbn [language languages].
  rewrite truthy_toLowerCase.
  destruct (JsString.truthy tag) eqn:E; [|reflexivity].
  rewrite truthy_toLowerCase, E. now rewrite langCode_toLowerCase.
Qed.

(** X8: the case of the letters of [navigator.language] does not matter:
    two tags that are equal once lower-cased give the same language. *)
Theorem detectBrowserLanguage_case_insensitive (tag tag' : string)
    (others : option (list string)) :
  JsString.toLowerCase tag = JsString.toLowerCase tag' ->
  detectBrowserLanguage (Browser (mkNavigator (Some tag) others))
  = detectBrowserLanguage (Browser (mkNavigator (Some tag') others)).
Proof.
  intros H.
  rewrite (detectBrowserLanguage_lower tag), (detectBrowserLanguage_lower tag').
  now rewrite H.
Qed.

Lemma detectBrowserLanguage_case_insensitive_witness :
  detectBrowserLanguage (Browser (mkNavigator (Some "TH-th") None))
  = detectBrowserLanguage (Browser (mkNavigator (Some "th-TH") None)).
Proof.
  exact (detectBrowserLanguage_case_insensitive "TH-th" "th-TH" None eq_refl).
Defined.

(** X9: [handleLanguageRedirect] replaces the location only at the root
    ([/] or the empty path), and then by the page of the detected language:
    [getLangFromUrl] reads that language back from the new path,
    [removeLanguagePrefix] gives [/] for it, and at the new path the
    function does not replace the location again. *)
Theorem handleLanguageRedirect_target
    (new_URL : string -> string -> option URL) (w : Window)
    (newUrl : string) :
  handleLanguageRedirect (Some w) = Some newUrl ->
  (location_pathname w = "/" \/ location_pathname w = "") /\
  getLangFromUrl new_URL (inl (mkURL newUrl))
  = Some (detectBrowserLanguage (Browser (window_navigator w))) /\
  removeLanguagePrefix newUrl = "/" /\
  handleLanguageRedirect (Some (after_replace w newUrl)) = None.
Proof.
  unfold handleLanguageRedirect.
  cbn [after_replace location_pathname window_navigator].
  set (detected := detectBrowserLanguage (Browser (window_navigator w))).
  clearbody detected.
  destruct (String.eqb (location_pathname w) "/"
            || String.eqb (location_pathname w) "") eqn:E; [|discriminate].
  intros [= <-]. split.
  - apply orb_true_iff in E as [E|E]; apply String.eqb_eq in E; auto.
  - destruct detected; repeat split.
Qed.

Lemma handleLanguageRedirect_target_witness :
  getLangFromUrl no_string_URL (inl (mkURL "/th/")) = Some th /\
  removeLanguagePrefix "/th/" = "/" /\
  handleLanguageRedirect
    (Some (mkWindow "/th/" (mkNavigator (Some "th-TH") None))) = None.
Proof.
  exact (proj2 (handleLanguageRedirect_target no_string_URL
                  (mkWindow "/" (mkNavigator (Some "th-TH") None))
                  "/th/" eq_refl)).
Defined.

(** ** [t]: where a key leaves the tree *)

Section TranslationEdges.

Context (h : Host) (translations : Language -> Translations).

Implicit Types (fallback : JsVal) (key : string).

(** The loop follows the stored part of a path and goes on from there. *)
Lemma walk_app fallback key (pre rest : list string) :
  forall (tree j : Json),
    stored_at tree pre = Some j ->
    walk h fallback key (VJson tree) (pre ++ rest)
    = walk h fallback key (VJson j) rest.
Proof.
  induction pre as [|k pre IH]; intros tree j; simpl.
  - now intros [= <-].
  - destruct tree as [| | | | |members]; try discriminate.
    destruct (Js.own members k) as [sub|] eqn:E; [|discriminate].
    intros H. now apply IH.
Qed.

Lemma t_of_walk (lang : Language) key fallback (r : Js.completion loop_end) :
  walk h fallback key (VJson (JObj (translations lang)))
       (JsString.split "." key) = r ->
  gives_up fallback key r ->
  t h translations lang key fallback = Js.Normal (Js.or fallback (VStr key)).
Proof.
  intros Hr Hg. unfold t. rewrite langTranslations_of, Hr.
  destruct Hg as [-> | ->]; reflexivity.
Qed.

(** X10: [t] reads no property of a string, a number, a boolean or [null].
    When the segments of the key lead to such a value and go on, whatever
    the further segments are ([length] as well), the result is the fallback
    if it is truthy and the whole key otherwise. *)
Theorem t_past_leaf (lang : Language) key fallback
    (pre : list string) (k : string) (rest : list string) (leaf : Json) :
  JsString.split "." key = (pre ++ k :: rest)%list ->
  stored_at (JObj (translations lang)) pre = Some leaf ->
  is_primitive leaf = true ->
  t h translations lang key fallback
  = Js.Normal (if Js.truthy fallback then fallback else VStr key).
Proof.
  intros Hsplit Hpre Hleaf.
  apply (t_of_walk lang key fallback _ eq_refl).
  rewrite Hsplit, (walk_app fallback key pre (k :: rest) _ _ Hpre).
  right. destruct leaf; try discriminate; simpl; try reflexivity;
    now rewrite andb_false_r.
Qed.

(** X11: the segments after the first missing one are never read.  When
    the segments of the key lead to an object that has no member under the
    next segment, and that segment names nothing the runtime supplies, the
    result is the fallback if it is truthy and the whole key otherwise,
    whatever follows. *)
Theorem t_missing_member (lang : Language) key fallback
    (pre : list string) (k : string) (rest : list string)
    (members : list (string * Json)) :
  JsString.split "." key = (pre ++ k :: rest)%list ->
  stored_at (JObj (translations lang)) pre = Some (JObj members) ->
  Js.own members k = None ->
  host_supplied h k = false ->
  t h translations lang key fallback
  = Js.Normal (if Js.truthy fallback then fallback else VStr key).
Proof.
  intros Hsplit Hpre Hown Hk.
  apply (t_of_walk lang key fallback _ eq_refl).
  rewrite Hsplit, (walk_app fallback key pre (k :: rest) _ _ Hpre).
  cbn [walk Js.truthy Js.typeof andb].
  change (String.eqb "object" "object") with true. cbn [andb].
  rewrite (Get_object_nothing h members k Hk Hown). apply walk_undefined.
Qed.

Lemma array_index_not_length (k : string) (i : N) :
  Js.array_index k = Some i -> String.eqb k "length" = false.
Proof.
  destruct (String.eqb k "length") eqn:E; [|reflexivity].
  apply String.eqb_eq in E. subst k. discriminate.
Qed.

(** X12: the elements of a stored array can be addressed: when the
    segments of the key lead to an array and the last segment is the
    decimal form of an index inside it, the result is the element at that
    index, unchanged, with or without a fallback. *)
Theorem t_array_element (lang : Language) key fallback
    (pre : list string) (k : string) (items : list Json) (i : N)
    (element : Json) :
  JsString.split "." key = (pre ++ [k])%list ->
  stored_at (JObj (translations lang)) pre = Some (JArr items) ->
  Js.array_index k = Some i ->
  nth_error items (N.to_nat i) = Some element ->
  t h translations lang key fallback = Js.Normal (VJson element).
Proof.
  intros Hsplit Hpre Hi Hnth.
  unfold t. rewrite langTranslations_of, Hsplit.
  rewrite (walk_app fallback key pre [k] _ _ Hpre).
  cbn [walk Js.truthy Js.typeof andb].
  change (String.eqb "object" "object") with true. cbn [andb Js.Get].
  unfold Js.own_of_array.
  rewrite (array_index_not_length k i Hi), Hi.
  assert (Hlt : N.ltb i (N.of_nat (length items)) = true).
  { apply N.ltb_lt.
    assert (N.to_nat i < length items)
      by (apply nth_error_Some; congruence).
    lia. }
  rewrite Hlt, Hnth. reflexivity.
Qed.

End TranslationEdges.

Lemma t_past_leaf_witness :
  t es2022 sample_translations en "nav.home.length" (VStr "Start")
  = Js.Normal (VStr "Start").
Proof.
  exact (t_past_leaf es2022 sample_translations en "nav.home.length"
           (VStr "Start") ["nav"; "home"] "length" [] (JStr "Home")
           eq_refl eq_refl eq_refl).
Defined.

Lemma t_missing_member_witness :
  t es2022 sample_translations en "menu.items.length" VUndef
  = Js.Normal (VStr "menu.items.length").
Proof.
  exact (t_missing_member es2022 sample_translations en "menu.items.length"
           VUndef [] "menu" ["items"; "length"] (sample_translations en)
           eq_refl eq_refl eq_refl eq_refl).
Defined.

Lemma t_array_element_witness :
  t es2022 sample_translations en "about.expertise_areas.1" (VStr "none")
  = Js.Normal (VStr "Construction").
Proof.
  exact (t_array_element es2022 sample_translations en
           "about.expertise_areas.1" (VStr "none")
           ["about"; "expertise_areas"] "1"
           [JStr "Engineering"; JStr "Construction"] 1 (JStr "Construction")
           eq_refl eq_refl eq_refl eq_refl).
Defined.

(** X13: each language stands alone.  [getAllTranslations(lang)] is the
    tree of [lang] itself, and [t(lang, ...)] gives the same result on two
    tables that hold the same tree for [lang]: a key missing there is
    never answered from the tree of the default language. *)
Theorem t_own_language_only (h : Host)
    (translations translations' : Language -> Translations)
    (lang : Language) (key : string) (fallback : JsVal) :
  translations lang = translations' lang ->
  getAllTranslations translations lang = VJson (JObj (translations lang)) /\
  getAllTranslations translations lang = getAllTranslations translations' lang
  /\ t h translations lang key fallback = t h translations' lang key fallback.
Proof.
  intros H. unfold getAllTranslations, t.
  rewrite !langTranslations_of, H. repeat split.
Qed.

Lemma t_own_language_only_witness :
  t es2022 sample_translations th "nav.about" VUndef
  = t es2022 (fun lang => match lang with
                          | th => sample_translations th
                          | _ => []
                          end) th "nav.about" VUndef.
Proof.
  exact (proj2 (proj2 (t_own_language_only es2022 sample_translations
                         (fun lang => match lang with
                                      | th => sample_translations th
                                      | _ => []
                                      end)
                         th "nav.about" VUndef eq_refl))).
Defined.

(** ** The metadata builders *)

Lemma map_indexed_app {A B : Type} (f : A -> nat -> B) (index : nat)
    (a b : list A) :
  map_indexed f index (a ++ b)
  = (map_indexed f index a ++ map_indexed f (index + length a) b)%list.
Proof.
  revert index; induction a as [|x a IH]; intros index; simpl.
  - now rewrite Nat.add_0_r.
  - rewrite IH. now rewrite Nat.add_succ_r.
Qed.

(** X14: the canonical URL and the alternate links agree.  For every
    argument of [generateSEOMeta], with or without a path, the alternates
    hold an entry for the language of the page, and the canonical URL is the
    site URL followed by the link of that entry; the canonical URL and the
    image URL both begin with the site URL, whatever image is passed. *)
Theorem generateSEOMeta_canonical_alternate (params : SEOParams) :
  let meta := generateSEOMeta params in
  (exists own, In own (meta_alternates meta) /\
               alt_lang own = meta_lang meta /\
               meta_canonical meta = site_url SITE_CONFIG ++ alt_href own) /\
  meta_lang meta = param_lang params /\
  JsString.startsWith (meta_canonical meta) (site_url SITE_CONFIG) = true /\
  JsString.startsWith (meta_image meta) (site_url SITE_CONFIG) = true.
Proof.
  cbv zeta. split; [|repeat split].
  exists (mkAlternate (param_lang params)
            ("/" ++ code (param_lang params)
                 ++ default_to "/" (param_path params))).
  split; [|split; reflexivity].
  unfold generateSEOMeta. cbn [meta_alternates].
  unfold getAlternateUrls, LANGUAGES. cbn [map].
  destruct (param_lang params); simpl; auto.
Qed.

Lemma breadcrumb_entries_shift (n index : nat) (items : list Breadcrumb) :
  map (shift_position n)
      (map_indexed (fun item i =>
                      {| li_type := "ListItem";
                         li_position := i + 1;
                         li_name := crumb_name item;
                         li_item := site_url SITE_CONFIG ++ crumb_url item |})
                   index items)
  = map_indexed (fun item i =>
                   {| li_type := "ListItem";
                      li_position := i + 1;
                      li_name := crumb_name item;
                      li_item := site_url SITE_CONFIG ++ crumb_url item |})
                (n + index) items.
Proof.
  revert index; induction items as [|x items IH]; intros index; simpl;
    [reflexivity|].
  f_equal.
  - unfold shift_position. cbn [li_type li_position li_name li_item].
    f_equal. lia.
  - rewrite IH. f_equal. lia.
Qed.

(** X15: breadcrumbs put after others keep them as they are: the schema
    of [a ++ b] is the schema of [a] followed by the schema of [b] with
    every position moved by the length of [a]. *)
Theorem generateBreadcrumbSchema_app (a b : list Breadcrumb) :
  itemListElement (generateBreadcrumbSchema (a ++ b))
  = (itemListElement (generateBreadcrumbSchema a)
     ++ map (shift_position (length a))
            (itemListElement (generateBreadcrumbSchema b)))%list.
Proof.
  unfold generateBreadcrumbSchema. cbn [itemListElement].
  rewrite map_indexed_app, breadcrumb_entries_shift.
  now rewrite Nat.add_0_r.
Qed.
